(** * Technical indicators: simple moving average and Bollinger bands

    A shallow embedding of [Technical_indicator/tech_ma.py] and
    [Technical_indicator/tech_bbands.py].

    Numbers.  The program computes on binary64 values.  They are modelled
    by [float]: a finite value is an exact real (rounding and overflow are
    idealised away), and the three special values NaN, +inf and -inf keep
    their IEEE-754 behaviour under [+], [-], [*], [/] and the comparisons.
    NaN is the library's marker for a missing value.  Zero carries no sign:
    a non-zero finite value divided by zero is the infinity of the sign of
    the dividend.

    Series.  A series is the list of its values in index order.  Every
    series of one call shares the index of [close], so the index-aligned
    element-wise operators of the library are position-wise here.  An input
    price is a finite real or missing.

    Windowing primitive.  [close.rolling(window, min_periods)] followed by
    [.mean()] or [.std()] belongs to the data-frame library, not to this
    repository; it is modelled from its documented behaviour in module
    [Rolling] below. *)

From Stdlib Require Import Reals Lra Lia List ZArith Bool.
Import ListNotations.
Local Open Scope R_scope.

(** ** Idealised binary64 values *)

Inductive float : Type :=
| NaN
| PInf
| NInf
| Fin (x : R).

Definition Rlt_b (a b : R) : bool := if Rlt_dec a b then true else false.
Definition Rle_b (a b : R) : bool := if Rle_dec a b then true else false.
Definition Req_b (a b : R) : bool := if Req_dec_T a b then true else false.

Definition signed_inf (negative : bool) : float :=
  if negative then NInf else PInf.

Definition is_neg (x : float) : bool :=
  match x with
  | NInf => true
  | Fin a => Rlt_b a 0
  | _ => false
  end.

Definition is_inf (x : float) : bool :=
  match x with PInf | NInf => true | _ => false end.

Definition fneg (x : float) : float :=
  match x with
  | NaN => NaN
  | PInf => NInf
  | NInf => PInf
  | Fin a => Fin (- a)
  end.

Definition fadd (x y : float) : float :=
  match x, y with
  | NaN, _ | _, NaN => NaN
  | PInf, NInf | NInf, PInf => NaN
  | PInf, _ | _, PInf => PInf
  | NInf, _ | _, NInf => NInf
  | Fin a, Fin b => Fin (a + b)
  end.

Definition fsub (x y : float) : float := fadd x (fneg y).

Definition fmul (x y : float) : float :=
  match x, y with
  | NaN, _ | _, NaN => NaN
  | Fin a, Fin b => Fin (a * b)
  | Fin a, _ =>
      if Req_b a 0 then NaN else signed_inf (xorb (is_neg x) (is_neg y))
  | _, Fin b =>
      if Req_b b 0 then NaN else signed_inf (xorb (is_neg x) (is_neg y))
  | _, _ => signed_inf (xorb (is_neg x) (is_neg y))
  end.

Definition fdiv (x y : float) : float :=
  match x, y with
  | NaN, _ | _, NaN => NaN
  | Fin a, Fin b =>
      if Req_b b 0
      then (if Req_b a 0 then NaN else signed_inf (Rlt_b a 0))
      else Fin (a / b)
  | Fin _, _ => Fin 0
  | _, Fin b => signed_inf (xorb (is_neg x) (Rlt_b b 0))
  | _, _ => NaN
  end.

(** Ordered comparisons: false as soon as one side is NaN. *)

Definition flt (x y : float) : bool :=
  match x, y with
  | NaN, _ | _, NaN => false
  | Fin a, Fin b => Rlt_b a b
  | NInf, NInf => false
  | NInf, _ => true
  | PInf, _ => false
  | Fin _, PInf => true
  | Fin _, NInf => false
  end.

Definition fgt (x y : float) : bool := flt y x.

Definition fle (x y : float) : bool :=
  match x, y with
  | NaN, _ | _, NaN => false
  | Fin a, Fin b => Rle_b a b
  | NInf, _ => true
  | _, PInf => true
  | _, _ => false
  end.

(** ** Series *)

Definition Series (A : Type) : Type := list A.

(** A closing price: a finite value, or missing. *)
Definition price : Type := option R.

Definition of_price (p : price) : float :=
  match p with
  | Some a => Fin a
  | None => NaN
  end.

(** Element-wise binary operator on two series of the same index. *)
Definition map2 {A B C : Type} (f : A -> B -> C)
    (xs : Series A) (ys : Series B) : Series C :=
  map (fun p => f (fst p) (snd p)) (combine xs ys).

(** [.astype(int)] on a boolean series. *)
Definition astype_int (bs : Series bool) : Series Z := map Z.b2z bs.

(** ** Results of a call: a value, or the library's [ValueError] *)

Inductive result (A : Type) : Type :=
| Ok (a : A)
| ValueError.

Arguments Ok {A} a.
Arguments ValueError {A}.

Definition bind {A B : Type} (m : result A) (k : A -> result B) : result B :=
  match m with
  | Ok a => k a
  | ValueError => ValueError
  end.

Notation "x <- m ;; k" := (bind m (fun x => k))
  (at level 61, m at next level, right associativity).

(** ** The windowing primitive *)

Module Rolling.

(** A validated fixed-size window. *)
Record t : Type := mk { window : nat; min_periods : nat }.

(** Modelled from the library's documentation: [rolling(window,
    min_periods)].  [min_periods], when given, must be a non-negative
    integer not above [window]; [window] must be an integer 0 or greater;
    otherwise [ValueError] is raised.  [min_periods] defaults to the window
    size. *)
Definition rolling (window : Z) (min_periods : option Z) : result t :=
  match min_periods with
  | Some mp =>
      if (mp <? 0)%Z then ValueError
      else if (window <? mp)%Z then ValueError
      else if (window <? 0)%Z then ValueError
      else Ok (mk (Z.to_nat window) (Z.to_nat mp))
  | None =>
      if (window <? 0)%Z then ValueError
      else Ok (mk (Z.to_nat window) (Z.to_nat window))
  end.

(** The trailing window ending at position [i], inclusive: positions
    [max 0 (i + 1 - window) .. i]. *)
Definition window_at (r : t) (close : Series price) (i : nat) : list price :=
  let start := (S i - window r)%nat in
  firstn (S i - start) (skipn start close).

(** The observations of a window: its values that are not missing. *)
Fixpoint observations (w : list price) : list R :=
  match w with
  | [] => []
  | Some a :: w' => a :: observations w'
  | None :: w' => observations w'
  end.

Definition Rsum (xs : list R) : R := fold_right Rplus 0 xs.

Definition count (xs : list R) : R := IZR (Z.of_nat (length xs)).

Definition mean_of (xs : list R) : R := Rsum xs / count xs.

(** Sum of squared differences from the mean. *)
Definition ssqdm (xs : list R) : R :=
  Rsum (map (fun x => (x - mean_of xs) * (x - mean_of xs)) xs).

(** Variance with divisor [N - ddof]. *)
Definition var_of (ddof : nat) (xs : list R) : R :=
  ssqdm xs / (count xs - IZR (Z.of_nat ddof)).

(** [.mean()] at one position: the mean of the observations when there are
    at least [min_periods] of them (and at least one), else NaN. *)
Definition mean_at (r : t) (close : Series price) (i : nat) : float :=
  let obs := observations (window_at r close i) in
  let nobs := length obs in
  if ((min_periods r <=? nobs) && (0 <? nobs))%nat
  then Fin (mean_of obs)
  else NaN.

(** [.std(ddof)] at one position: the square root of the variance with
    divisor [N - ddof] when there are at least [min_periods] observations
    (and more than [ddof]), else NaN. *)
Definition std_at (ddof : nat) (r : t) (close : Series price) (i : nat)
    : float :=
  let obs := observations (window_at r close i) in
  let nobs := length obs in
  if ((Nat.max (min_periods r) 1 <=? nobs) && (ddof <? nobs))%nat
  then Fin (sqrt (var_of ddof obs))
  else NaN.

Definition mean (r : t) (close : Series price) : Series float :=
  map (mean_at r close) (seq 0 (length close)).

(** [ddof] defaults to 1: the sample standard deviation. *)
Definition std (r : t) (close : Series price) : Series float :=
  map (std_at 1 r close) (seq 0 (length close)).

End Rolling.

(** ** tech_ma.py *)

Record SMA : Type := { sma : Series float }.

Definition simple_moving_average (close : Series price) (period : Z)
    : result SMA :=
  r <- Rolling.rolling period None ;;
  let sma := Rolling.mean r close in
  Ok {| sma := sma |}.

(** ** tech_bbands.py *)

Record BBands : Type := {
  bb_middle : Series float;
  bb_upper : Series float;
  bb_lower : Series float;
  bb_break_upper : Series Z;
  bb_break_lower : Series Z;
  bb_bandwidth : Series float;
  bb_percent_b : Series float
}.

Definition bbands (close : Series price) (period : Z) (times : float)
    : result BBands :=
  r <- Rolling.rolling period (Some period) ;;
  let bb_middle := Rolling.mean r close in
  let bb_std := Rolling.std r close in
  let bb_upper := map2 fadd bb_middle (map (fmul times) bb_std) in
  let bb_lower := map2 fsub bb_middle (map (fmul times) bb_std) in
  let bb_break_upper :=
    astype_int (map2 fgt (map of_price close) bb_upper) in
  let bb_break_lower :=
    astype_int (map2 flt (map of_price close) bb_lower) in
  let bb_bandwidth := map2 fdiv (map2 fsub bb_upper bb_lower) bb_middle in
  let bb_percent_b :=
    map2 fdiv (map2 fsub (map of_price close) bb_lower)
              (map2 fsub bb_upper bb_lower) in
  Ok {| bb_middle := bb_middle;
        bb_upper := bb_upper;
        bb_lower := bb_lower;
        bb_break_upper := bb_break_upper;
        bb_break_lower := bb_break_lower;
        bb_bandwidth := bb_bandwidth;
        bb_percent_b := bb_percent_b |}.

(** The intermediate series [bb_std] of [bbands] (line 26), which the
    returned table does not expose. *)
Definition bb_std (close : Series price) (period : Z) : Series float :=
  Rolling.std (Rolling.mk (Z.to_nat period) (Z.to_nat period)) close.

(** ** Specification-side notions *)

(** The trailing [p]-sized window of [S] ending at [i]: [S[i-p+1 .. i]]. *)
Definition trailing {A : Type} (S : Series A) (p i : nat) : list A :=
  firstn p (skipn (i + 1 - p) S).



(** The window as [bbands] sets it up: [min_periods = window = period]. *)
Definition window_of (period : Z) : Rolling.t :=
  Rolling.mk (Z.to_nat period) (Z.to_nat period).

(** ** One position of the rolling mean and standard deviation

    With [min_periods = window = period], position [i] is in one of three
    states: no mean and no deviation (window not full, or a value missing);
    a mean and no deviation (a full window of a single observation); a mean
    and a non-negative deviation, which is zero only if the price at [i] is
    the mean. *)

Inductive row_state (c : price) (m s : float) : Prop :=
| row_missing : m = NaN -> s = NaN -> row_state c m s
| row_single (a : R) : m = Fin a -> s = NaN -> row_state c m s
| row_full (a sd : R) :
    m = Fin a -> s = Fin sd -> 0 <= sd -> (sd = 0 -> c = Some a) ->
    row_state c m s.

(** Row [i] of the table [bbands] returns, from the price [c], the rolling
    mean [m] and the rolling deviation [s] at that position. *)
Record row_of (T : BBands) (sd : Series float) (times : float) (i : nat)
    (c : price) (m s : float) : Prop := {
  row_middle : nth_error (bb_middle T) i = Some m;
  row_std : nth_error sd i = Some s;
  row_upper : nth_error (bb_upper T) i = Some (fadd m (fmul times s));
  row_lower : nth_error (bb_lower T) i = Some (fsub m (fmul times s));
  row_break_upper :
    nth_error (bb_break_upper T) i =
    Some (Z.b2z (fgt (of_price c) (fadd m (fmul times s))));
  row_break_lower :
    nth_error (bb_break_lower T) i =
    Some (Z.b2z (flt (of_price c) (fsub m (fmul times s))));
  row_bandwidth :
    nth_error (bb_bandwidth T) i =
    Some (fdiv (fsub (fadd m (fmul times s)) (fsub m (fmul times s))) m);
  row_percent_b :
    nth_error (bb_percent_b T) i =
    Some (fdiv (fsub (of_price c) (fsub m (fmul times s)))
               (fsub (fadd m (fmul times s)) (fsub m (fmul times s))))
}.



(** * Properties *)

(** ** Lists and series *)

Lemma nth_error_map2 {A B C : Type} (f : A -> B -> C) xs ys i :
  nth_error (map2 f xs ys) i =
  match nth_error xs i, nth_error ys i with
  | Some x, Some y => Some (f x y)
  | _, _ => None
  end.
Proof.
  unfold map2. revert ys i.
  induction xs as [|x xs IH]; intros [|y ys] [|i]; cbn; try reflexivity.
  - destruct (nth_error xs i); reflexivity.
  - apply IH.
Qed.

Lemma nth_error_tabulate {A : Type} (f : nat -> A) n i :
  (i < n)%nat -> nth_error (map f (seq 0 n)) i = Some (f i).
Proof.
  intros Hi. rewrite nth_error_map, nth_error_seq.
  destruct (Nat.ltb_spec i n); [reflexivity | lia].
Qed.

Lemma map2_length {A B C : Type} (f : A -> B -> C) xs ys :
  length (map2 f xs ys) = Nat.min (length xs) (length ys).
Proof. unfold map2. now rewrite length_map, length_combine. Qed.

Lemma mean_length r close : length (Rolling.mean r close) = length close.
Proof. unfold Rolling.mean. now rewrite length_map, length_seq. Qed.

Lemma std_length r close : length (Rolling.std r close) = length close.
Proof. unfold Rolling.std. now rewrite length_map, length_seq. Qed.

(** ** Boolean tests on reals *)

Lemma Rlt_b_true a b : a < b -> Rlt_b a b = true.
Proof. unfold Rlt_b. destruct (Rlt_dec a b); [reflexivity | lra]. Qed.

Lemma Rlt_b_false a b : b <= a -> Rlt_b a b = false.
Proof. unfold Rlt_b. destruct (Rlt_dec a b); [lra | reflexivity]. Qed.


Lemma Req_b_true a b : a = b -> Req_b a b = true.
Proof. unfold Req_b. destruct (Req_dec_T a b); [reflexivity | lra]. Qed.

Lemma Req_b_false a b : a <> b -> Req_b a b = false.
Proof. unfold Req_b. destruct (Req_dec_T a b); [contradiction | reflexivity]. Qed.

(** ** Windows and observations *)

Lemma observations_length_le w :
  (length (Rolling.observations w) <= length w)%nat.
Proof. induction w as [|[a|] w IH]; cbn; lia. Qed.

Lemma observations_all_present w :
  length (Rolling.observations w) = length w ->
  w = map Some (Rolling.observations w).
Proof.
  induction w as [|[a|] w IH]; cbn; intros H.
  - reflexivity.
  - f_equal. apply IH. lia.
  - pose proof (observations_length_le w). lia.
Qed.

Lemma observations_map_Some xs : Rolling.observations (map Some xs) = xs.
Proof. induction xs as [|x xs IH]; cbn; [reflexivity | now rewrite IH]. Qed.

Lemma window_at_length r close i :
  (i < length close)%nat ->
  length (Rolling.window_at r close i) = Nat.min (S i) (Rolling.window r).
Proof.
  intros Hi. unfold Rolling.window_at.
  rewrite length_firstn, length_skipn. lia.
Qed.

Lemma window_at_trailing p mp close i :
  (p <= S i)%nat ->
  Rolling.window_at (Rolling.mk p mp) close i = trailing close p i.
Proof.
  intros Hp. unfold Rolling.window_at, trailing. cbn [Rolling.window].
  replace (S i - (S i - p))%nat with p by lia.
  replace (i + 1 - p)%nat with (S i - p)%nat by lia.
  reflexivity.
Qed.

Lemma window_at_last r close i c :
  (0 < Rolling.window r)%nat ->
  nth_error close i = Some c ->
  In c (Rolling.window_at r close i).
Proof.
  intros Hw Hc. unfold Rolling.window_at.
  set (start := (S i - Rolling.window r)%nat).
  apply (nth_error_In _ (i - start)).
  rewrite nth_error_firstn.
  destruct (Nat.ltb_spec (i - start) (S i - start)); [|lia].
  rewrite nth_error_skipn.
  replace (start + (i - start))%nat with i by lia.
  exact Hc.
Qed.

Lemma present_in_observations w c :
  length (Rolling.observations w) = length w ->
  In c w -> exists x, c = Some x /\ In x (Rolling.observations w).
Proof.
  intros Hall Hin. rewrite (observations_all_present w Hall) in Hin.
  apply in_map_iff in Hin. destruct Hin as [x [Hx Hin]]. eauto.
Qed.

(** ** Sums of squares *)

Lemma Rsum_sq_nonneg mu xs :
  0 <= Rolling.Rsum (map (fun x => (x - mu) * (x - mu)) xs).
Proof.
  unfold Rolling.Rsum.
  induction xs as [|x xs IH]; cbn; [lra|].
  set (rest := fold_right Rplus 0 _) in *.
  pose proof (Rle_0_sqr (x - mu)) as Hsq. unfold Rsqr in Hsq. lra.
Qed.

Lemma Rsum_sq_zero mu xs :
  Rolling.Rsum (map (fun x => (x - mu) * (x - mu)) xs) = 0 ->
  forall x, In x xs -> x = mu.
Proof.
  unfold Rolling.Rsum.
  induction xs as [|y xs IH]; cbn; intros Hz x Hin; [contradiction|].
  pose proof (Rsum_sq_nonneg mu xs) as Hpos. unfold Rolling.Rsum in Hpos.
  set (rest := fold_right Rplus 0 _) in *.
  pose proof (Rle_0_sqr (y - mu)) as Hsq. unfold Rsqr in Hsq.
  destruct Hin as [<- | Hin]; [nra | apply IH; [lra | exact Hin]].
Qed.

Lemma count_gt xs k :
  (k < length xs)%nat -> IZR (Z.of_nat k) < Rolling.count xs.
Proof. intros H. unfold Rolling.count. apply IZR_lt. lia. Qed.

Lemma var_of_nonneg xs :
  (1 < length xs)%nat -> 0 <= Rolling.var_of 1 xs.
Proof.
  intros H. pose proof (count_gt xs 1 H) as Hc.
  pose proof (Rsum_sq_nonneg (Rolling.mean_of xs) xs) as Hs.
  unfold Rolling.var_of, Rolling.ssqdm, Rdiv.
  apply Rmult_le_pos; [exact Hs|].
  left. apply Rinv_0_lt_compat. lra.
Qed.

Lemma var_of_zero xs :
  (1 < length xs)%nat -> Rolling.var_of 1 xs = 0 ->
  forall x, In x xs -> x = Rolling.mean_of xs.
Proof.
  intros H Hz. pose proof (count_gt xs 1 H) as Hc.
  apply Rsum_sq_zero.
  unfold Rolling.var_of, Rolling.ssqdm, Rdiv in Hz.
  apply Rmult_integral in Hz. destruct Hz as [Hz | Hz]; [exact Hz|].
  exfalso. revert Hz. apply Rinv_neq_0_compat. lra.
Qed.

Lemma rolling_row_state close period i c :
  nth_error close i = Some c ->
  row_state c (Rolling.mean_at (window_of period) close i)
              (Rolling.std_at 1 (window_of period) close i).
Proof.
  intros Hc. unfold Rolling.mean_at, Rolling.std_at, window_of.
  cbn [Rolling.min_periods].
  set (r := Rolling.mk _ _).
  set (w := Rolling.window_at r close i).
  set (obs := Rolling.observations w).
  assert (Hi : (i < length close)%nat)
    by (apply nth_error_Some; congruence).
  pose proof (window_at_length r close i Hi) as Hlen.
  pose proof (observations_length_le w) as Hobs.
  fold w in Hlen. fold obs in Hobs. cbn [Rolling.window r] in Hlen.
  destruct (Nat.leb_spec (Z.to_nat period) (length obs)) as [Hp|Hp];
    destruct (Nat.ltb_spec 0 (length obs)) as [H0|H0];
    destruct (Nat.leb_spec (Nat.max (Z.to_nat period) 1) (length obs)) as [Hm|Hm];
    destruct (Nat.ltb_spec 1 (length obs)) as [H1|H1];
    cbn [andb]; try lia;
    try (now apply row_missing);
    try (now eapply row_single).
  eapply row_full; [reflexivity | reflexivity | apply sqrt_pos |].
  intros Hz. apply sqrt_eq_0 in Hz; [|now apply var_of_nonneg].
  assert (Hall : length obs = length w) by lia.
  assert (Hin : In c w).
  { apply window_at_last; [cbn; lia | exact Hc]. }
  destruct (present_in_observations w c Hall Hin) as [x [-> Hx]].
  f_equal. now apply var_of_zero.
Qed.

Lemma mean_at_short p mp close i :
  (S i < mp)%nat -> Rolling.mean_at (Rolling.mk p mp) close i = NaN.
Proof.
  intros Hs. unfold Rolling.mean_at. cbn [Rolling.min_periods].
  set (w := Rolling.window_at _ close i).
  pose proof (observations_length_le w) as Hobs.
  assert (length w <= S i)%nat.
  { unfold w, Rolling.window_at. rewrite length_firstn. lia. }
  destruct (Nat.leb_spec mp (length (Rolling.observations w))); [lia|].
  reflexivity.
Qed.

(** ** The calls *)

Lemma rolling_default period :
  (0 <= period)%Z ->
  Rolling.rolling period None = Ok (window_of period).
Proof.
  intros H. unfold Rolling.rolling.
  destruct (Z.ltb_spec period 0); [lia | reflexivity].
Qed.

Lemma rolling_min_periods period :
  (0 <= period)%Z ->
  Rolling.rolling period (Some period) = Ok (window_of period).
Proof.
  intros H. unfold Rolling.rolling.
  destruct (Z.ltb_spec period 0); [lia|].
  destruct (Z.ltb_spec period period); [lia | reflexivity].
Qed.

Lemma rolling_negative period mp :
  (period < 0)%Z -> (mp = None \/ mp = Some period) ->
  Rolling.rolling period mp = ValueError.
Proof.
  intros H [-> | ->]; unfold Rolling.rolling;
    destruct (Z.ltb_spec period 0); try lia; reflexivity.
Qed.

Lemma bbands_row close period times T i c :
  bbands close period times = Ok T ->
  nth_error close i = Some c ->
  row_of T (bb_std close period) times i c
    (Rolling.mean_at (window_of period) close i)
    (Rolling.std_at 1 (window_of period) close i)
  /\ row_state c (Rolling.mean_at (window_of period) close i)
                 (Rolling.std_at 1 (window_of period) close i).
Proof.
  intros H Hc. split; [|now apply rolling_row_state].
  assert (Hi : (i < length close)%nat)
    by (apply nth_error_Some; congruence).
  destruct (Z.ltb_spec period 0) as [Hn|Hn].
  { unfold bbands in H. rewrite rolling_negative in H by auto. discriminate. }
  unfold bbands in H. rewrite rolling_min_periods in H by assumption.
  cbn [bind] in H. injection H as <-.
  assert (Hm : nth_error (Rolling.mean (window_of period) close) i =
               Some (Rolling.mean_at (window_of period) close i))
    by (now apply nth_error_tabulate).
  assert (Hs : nth_error (Rolling.std (window_of period) close) i =
               Some (Rolling.std_at 1 (window_of period) close i))
    by (now apply nth_error_tabulate).
  split; cbn [bb_middle bb_upper bb_lower bb_break_upper bb_break_lower
              bb_bandwidth bb_percent_b];
    unfold astype_int, bb_std; fold (window_of period);
    repeat (rewrite ?nth_error_map, ?nth_error_map2, ?Hm, ?Hs, ?Hc;
            cbn [option_map]);
    reflexivity.
Qed.

Lemma bbands_lengths close period times T :
  bbands close period times = Ok T ->
  length (bb_middle T) = length close /\
  length (bb_upper T) = length close /\
  length (bb_lower T) = length close /\
  length (bb_break_upper T) = length close /\
  length (bb_break_lower T) = length close /\
  length (bb_bandwidth T) = length close /\
  length (bb_percent_b T) = length close.
Proof.
  intros H. destruct (Z.ltb_spec period 0) as [Hn|Hn].
  { unfold bbands in H. rewrite rolling_negative in H by auto. discriminate. }
  unfold bbands in H. rewrite rolling_min_periods in H by assumption.
  cbn [bind] in H. injection H as <-.
  cbn [bb_middle bb_upper bb_lower bb_break_upper bb_break_lower
       bb_bandwidth bb_percent_b].
  unfold astype_int.
  repeat rewrite ?length_map, ?map2_length, ?mean_length, ?std_length.
  repeat split; lia.
Qed.

Lemma bbands_position close period times T i :
  bbands close period times = Ok T ->
  (i < length close)%nat ->
  exists c, nth_error close i = Some c.
Proof.
  intros _ Hi. destruct (nth_error close i) as [c|] eqn:E; [eauto|].
  apply nth_error_None in E. lia.
Qed.

(** ** Special values *)



Lemma flt_nan_r x : flt x NaN = false.
Proof. destruct x; reflexivity. Qed.

Lemma fmul_nan_r x : fmul x NaN = NaN.
Proof. destruct x; reflexivity. Qed.

Lemma fdiv_nan_r x : fdiv x NaN = NaN.
Proof. destruct x; reflexivity. Qed.

Lemma fadd_nan_r x : fadd x NaN = NaN.
Proof. destruct x; reflexivity. Qed.

Lemma fsub_nan_r x : fsub x NaN = NaN.
Proof. destruct x; reflexivity. Qed.

(** * The claims *)

(** ** C1: break flags where the upper band is missing *)




(** ** C2: the simple moving average is the mean of the trailing window *)






(** ** C8: a window of one observation *)

Lemma series_tabulate {A : Type} (f : nat -> A) (l : list A) :
  (forall i x, nth_error l i = Some x -> f i = x) ->
  map f (seq 0 (length l)) = l.
Proof.
  intros H. apply nth_error_ext. intros i.
  destruct (Nat.ltb_spec i (length l)) as [Hi|Hi].
  - rewrite nth_error_tabulate by assumption.
    destruct (nth_error l i) as [x|] eqn:E.
    + f_equal. now apply H.
    + apply nth_error_None in E. lia.
  - transitivity (@None A); [|symmetry]; apply nth_error_None;
      rewrite ?length_map, ?length_seq; lia.
Qed.

Lemma trailing_one {A : Type} (S0 : Series A) i c :
  nth_error S0 i = Some c -> trailing S0 1 i = [c].
Proof.
  unfold trailing. replace (i + 1 - 1)%nat with i by lia.
  revert i. induction S0 as [|x S0 IH]; intros [|i]; cbn;
    try discriminate.
  - intros [= ->]. reflexivity.
  - apply IH.
Qed.

Lemma mean_at_one close i c :
  nth_error close i = Some c ->
  Rolling.mean_at (Rolling.mk 1 1) close i = of_price c.
Proof.
  intros Hc. unfold Rolling.mean_at.
  rewrite window_at_trailing by lia.
  rewrite (trailing_one _ _ _ Hc).
  destruct c as [a|]; cbn; [|reflexivity].
  f_equal. unfold Rolling.mean_of, Rolling.count. cbn. field.
Qed.

Lemma std_at_one close i :
  Rolling.std_at 1 (Rolling.mk 1 1) close i = NaN.
Proof.
  unfold Rolling.std_at.
  set (w := Rolling.window_at _ close i).
  pose proof (observations_length_le w) as Hle.
  assert (length w <= 1)%nat.
  { unfold w, Rolling.window_at. rewrite length_firstn.
    cbn [Rolling.window]. lia. }
  destruct (Nat.ltb_spec 1 (length (Rolling.observations w))); [lia|].
  now rewrite andb_false_r.
Qed.

(** C8: with [period = 1] the moving average is the input series itself,
    value for value (a missing price stays missing). *)
Theorem C8_sma_period_one_is_identity (S0 : Series price) :
  simple_moving_average S0 1 = Ok {| sma := map of_price S0 |}.
Proof.
  unfold simple_moving_average. rewrite rolling_default by lia.
  cbn [bind]. do 2 f_equal.
  unfold Rolling.mean, window_of. change (Z.to_nat 1) with 1%nat.
  rewrite <- (length_map of_price).
  apply series_tabulate. intros i x Hx.
  rewrite nth_error_map in Hx.
  destruct (nth_error S0 i) as [c|] eqn:Hc; [|discriminate].
  injection Hx as <-. now apply mean_at_one.
Qed.

(** ** C9: Bollinger bands with a window of one observation *)

Lemma series_all_nan (l : Series float) n :
  length l = n ->
  (forall i x, nth_error l i = Some x -> x = NaN) ->
  l = repeat NaN n.
Proof.
  intros <- H. apply nth_error_ext. intros i.
  destruct (Nat.ltb_spec i (length l)) as [Hi|Hi].
  - rewrite nth_error_repeat by assumption.
    destruct (nth_error l i) as [x|] eqn:E.
    + f_equal. now apply (H i).
    + apply nth_error_None in E. lia.
  - transitivity (@None float); [|symmetry]; apply nth_error_None;
      rewrite ?repeat_length; lia.
Qed.

(** C9: with [period = 1], for every series and every multiplier,
    [bb_middle] is the input at every position, and [bb_std], [bb_upper],
    [bb_lower], [bb_bandwidth] and [bb_percent_b] are missing at every
    position: a window of one observation has no sample deviation. *)
Theorem C9_bbands_period_one (S0 : Series price) (times : float) :
  exists T,
    bbands S0 1 times = Ok T /\
    bb_middle T = map of_price S0 /\
    bb_std S0 1 = repeat NaN (length S0) /\
    bb_upper T = repeat NaN (length S0) /\
    bb_lower T = repeat NaN (length S0) /\
    bb_bandwidth T = repeat NaN (length S0) /\
    bb_percent_b T = repeat NaN (length S0).
Proof.
  destruct (bbands S0 1 times) as [T|] eqn:H.
  2:{ unfold bbands in H. rewrite rolling_min_periods in H by lia.
      discriminate. }
  exists T. split; [reflexivity|].
  destruct (bbands_lengths _ _ _ _ H) as (Lm & Lu & Ll & _ & _ & Lw & Lb).
  assert (Row : forall i, (i < length S0)%nat ->
            exists c, nth_error S0 i = Some c /\
              row_of T (bb_std S0 1) times i c (of_price c) NaN).
  { intros i Hi. destruct (bbands_position _ _ _ _ i H Hi) as [c Hc].
    exists c. split; [assumption|].
    destruct (bbands_row _ _ _ _ _ _ H Hc) as [R _].
    unfold window_of in R. change (Z.to_nat 1) with 1%nat in R.
    now rewrite (mean_at_one _ _ _ Hc), std_at_one in R. }
  assert (Pos : forall (l : Series float) i x,
            length l = length S0 -> nth_error l i = Some x ->
            (i < length S0)%nat).
  { intros l i x <- E. apply nth_error_Some. congruence. }
  split; [|repeat split].
  - apply nth_error_ext. intros i. rewrite nth_error_map.
    destruct (Nat.ltb_spec i (length S0)) as [Hi|Hi].
    + destruct (Row i Hi) as (c & Hc & R).
      now rewrite (row_middle _ _ _ _ _ _ _ R), Hc.
    + rewrite (proj2 (nth_error_None S0 i)) by lia.
      apply nth_error_None. lia.
  - apply series_all_nan; [apply std_length|]. intros i x Hx.
    destruct (Row i (Pos _ _ _ (std_length _ _) Hx)) as (c & Hc & R).
    rewrite (row_std _ _ _ _ _ _ _ R) in Hx. congruence.
  - apply series_all_nan; [assumption|]. intros i x Hx.
    destruct (Row i (Pos _ _ _ Lu Hx)) as (c & Hc & R).
    rewrite (row_upper _ _ _ _ _ _ _ R), fmul_nan_r, fadd_nan_r in Hx.
    congruence.
  - apply series_all_nan; [assumption|]. intros i x Hx.
    destruct (Row i (Pos _ _ _ Ll Hx)) as (c & Hc & R).
    rewrite (row_lower _ _ _ _ _ _ _ R), fmul_nan_r, fsub_nan_r in Hx.
    congruence.
  - apply series_all_nan; [assumption|]. intros i x Hx.
    destruct (Row i (Pos _ _ _ Lw Hx)) as (c & Hc & R).
    rewrite (row_bandwidth _ _ _ _ _ _ _ R), fmul_nan_r, fadd_nan_r in Hx.
    cbn in Hx. congruence.
  - apply series_all_nan; [assumption|]. intros i x Hx.
    destruct (Row i (Pos _ _ _ Lb Hx)) as (c & Hc & R).
    rewrite (row_percent_b _ _ _ _ _ _ _ R), fmul_nan_r, fadd_nan_r in Hx.
    cbn in Hx. rewrite fdiv_nan_r in Hx. congruence.
Qed.

(** ** Full windows of present prices *)

Lemma mean_at_present p (close : Series price) i xs :
  (0 < p)%nat -> (p <= S i)%nat ->
  trailing close p i = map Some xs -> length xs = p ->
  Rolling.mean_at (Rolling.mk p p) close i = Fin (Rolling.mean_of xs).
Proof.
  intros H0 Hp Hw Hlen. unfold Rolling.mean_at.
  rewrite window_at_trailing, Hw, observations_map_Some by assumption.
  cbn [Rolling.min_periods]. rewrite Hlen.
  destruct (Nat.leb_spec p p); [|lia].
  destruct (Nat.ltb_spec 0 p); [|lia].
  reflexivity.
Qed.

Lemma std_at_present p (close : Series price) i xs :
  (1 < p)%nat -> (p <= S i)%nat ->
  trailing close p i = map Some xs -> length xs = p ->
  Rolling.std_at 1 (Rolling.mk p p) close i =
  Fin (sqrt (Rolling.var_of 1 xs)).
Proof.
  intros H1 Hp Hw Hlen. unfold Rolling.std_at.
  rewrite window_at_trailing, Hw, observations_map_Some by assumption.
  cbn [Rolling.min_periods]. rewrite Hlen.
  destruct (Nat.leb_spec (Nat.max p 1) p); [|lia].
  destruct (Nat.ltb_spec 1 p); [|lia].
  reflexivity.
Qed.

Lemma bbands_total close period times :
  (0 <= period)%Z -> exists T, bbands close period times = Ok T.
Proof.
  intros H. unfold bbands. rewrite rolling_min_periods by assumption.
  cbn [bind]. eauto.
Qed.

Lemma bbands_error close period times :
  bbands close period times = ValueError -> (period < 0)%Z.
Proof.
  intros H. destruct (Z.ltb_spec period 0) as [Hn|Hn]; [assumption|].
  destruct (bbands_total close period times Hn) as [T HT]. congruence.
Qed.

Lemma series_position {A : Type} (l : Series A) n i x :
  length l = n -> nth_error l i = Some x -> (i < n)%nat.
Proof. intros <- E. apply nth_error_Some. congruence. Qed.

(** The row at a position known through one of the series of the call. *)
Lemma bbands_row_at close period times T i :
  bbands close period times = Ok T ->
  (i < length close)%nat ->
  exists c m s,
    nth_error close i = Some c /\
    row_of T (bb_std close period) times i c m s /\
    row_state c m s.
Proof.
  intros H Hi. destruct (bbands_position _ _ _ _ i H Hi) as [c Hc].
  destruct (bbands_row _ _ _ _ _ _ H Hc) as [R St]. eauto 6.
Qed.


(** ** C7: the bands are symmetric about the middle band *)



(** ** C10: the bands are ordered around the middle band *)



(** ** C4: [bb_percent_b] where the band has no width *)


(** Worked positions used below. *)

Ltac unfold_stats :=
  unfold Rolling.var_of, Rolling.ssqdm, Rolling.mean_of, Rolling.Rsum,
    Rolling.count; cbn [map fold_right length Z.of_nat Pos.of_succ_nat
                        Pos.succ].




(** The side condition of C4 is needed only for a zero multiplier, which
    collapses the band over any window: over the non-constant window
    [10, 12] the width is zero and [bb_percent_b] is +inf. *)
Remark percent_b_zero_multiplier :
  forall T, bbands [Some 10; Some 12] 2 (Fin 0) = Ok T ->
    nth_error (map2 fsub (bb_upper T) (bb_lower T)) 1 = Some (Fin 0) /\
    nth_error (bb_percent_b T) 1 = Some PInf.
Proof.
  intros T H.
  destruct (bbands_row _ _ _ _ 1%nat (Some 12) H eq_refl) as [R _].
  unfold window_of in R. change (Z.to_nat 2) with 2%nat in R.
  rewrite (mean_at_present 2 _ 1 [10; 12]) in R by (reflexivity || lia).
  rewrite (std_at_present 2 _ 1 [10; 12]) in R by (reflexivity || lia).
  destruct R as [_ _ Ru Rl _ _ _ Rb].
  cbn [fadd fsub fmul fdiv fneg of_price] in Ru, Rl, Rb.
  rewrite nth_error_map2, Ru, Rl, Rb. cbn [fadd fsub fneg].
  assert (Hm : Rolling.mean_of [10; 12] = 11) by (unfold_stats; lra).
  rewrite Hm. split.
  - do 2 f_equal. lra.
  - rewrite Req_b_true by lra. rewrite Req_b_false by lra.
    rewrite Rlt_b_false by lra. reflexivity.
Qed.

(** ** C5: [bb_bandwidth] where the middle band is zero or missing *)

Lemma mixed_pair_mean :
  Rolling.mean_at (Rolling.mk 2 2) [Some (-1); Some 1] 1 = Fin 0.
Proof.
  rewrite (mean_at_present 2 _ 1 [-1; 1]) by (reflexivity || lia).
  f_equal. unfold_stats. lra.
Qed.

Lemma mixed_pair_std :
  Rolling.std_at 1 (Rolling.mk 2 2) [Some (-1); Some 1] 1 = Fin (sqrt 2).
Proof.
  rewrite (std_at_present 2 _ 1 [-1; 1]) by (reflexivity || lia).
  do 2 f_equal. unfold_stats. lra.
Qed.

Lemma mixed_pair_row T :
  bbands [Some (-1); Some 1] 2 (Fin 2) = Ok T ->
  nth_error (bb_middle T) 1 = Some (Fin 0) /\
  nth_error (bb_upper T) 1 = Some (Fin (0 + 2 * sqrt 2)) /\
  nth_error (bb_lower T) 1 = Some (Fin (0 + - (2 * sqrt 2))) /\
  nth_error (bb_bandwidth T) 1 = Some PInf.
Proof.
  intros H.
  destruct (bbands_row _ _ _ _ 1%nat (Some 1) H eq_refl) as [R _].
  unfold window_of in R. change (Z.to_nat 2) with 2%nat in R.
  rewrite mixed_pair_mean, mixed_pair_std in R.
  destruct R as [Rm _ Ru Rl _ _ Rw _].
  cbn [fadd fsub fmul fdiv fneg] in Ru, Rl, Rw.
  repeat split; try assumption.
  rewrite Rw. pose proof (sqrt_lt_R0 2 ltac:(lra)) as Hs.
  rewrite Req_b_true by reflexivity.
  rewrite Req_b_false by lra. rewrite Rlt_b_false by lra. reflexivity.
Qed.

(** C5, as stated, fails: for the series [-1, 1] with period 2 and
    multiplier 2 the middle band at position 1 is zero and [bb_bandwidth]
    there is +inf, an infinity and not the missing marker. *)
Lemma C5_bandwidth_counterexample :
  ~ (forall close period times T i,
        bbands close period times = Ok T ->
        nth_error (bb_middle T) i = Some (Fin 0) \/
        nth_error (bb_middle T) i = Some NaN ->
        nth_error (bb_bandwidth T) i = Some NaN).
Proof.
  intros H.
  destruct (bbands_total [Some (-1); Some 1] 2 (Fin 2) ltac:(lia))
    as [T HT].
  destruct (mixed_pair_row T HT) as (Hm & _ & _ & Hw).
  specialize (H _ _ _ T 1%nat HT (or_introl Hm)). congruence.
Qed.

(** C5, amended: a call fails only on a negative period, never in a
    division.  Where [bb_middle] is missing, [bb_bandwidth] is missing
    (NaN).  Where [bb_middle] is zero, [bb_bandwidth] is NaN if the band
    width [bb_upper - bb_lower] is zero or missing, and otherwise an
    infinity. *)
Theorem C5_bandwidth_on_zero_or_missing_middle close period times :
  (bbands close period times = ValueError -> (period < 0)%Z) /\
  forall T, bbands close period times = Ok T ->
    forall i m u l,
      nth_error (bb_middle T) i = Some m ->
      nth_error (bb_upper T) i = Some u ->
      nth_error (bb_lower T) i = Some l ->
      (m = NaN \/ (m = Fin 0 /\ (fsub u l = Fin 0 \/ fsub u l = NaN)) ->
       nth_error (bb_bandwidth T) i = Some NaN) /\
      (m = Fin 0 -> fsub u l <> Fin 0 -> fsub u l <> NaN ->
       exists b, nth_error (bb_bandwidth T) i = Some b /\ is_inf b = true).
Proof.
  split; [apply bbands_error|].
  intros T H i m u l Hm Hu Hl.
  destruct (bbands_lengths _ _ _ _ H) as (_ & Lu & _).
  pose proof (series_position _ _ _ _ Lu Hu) as Hi.
  destruct (bbands_row_at _ _ _ _ i H Hi) as (c & m' & s & Hc & R & St).
  rewrite (row_middle _ _ _ _ _ _ _ R) in Hm. injection Hm as ->.
  rewrite (row_upper _ _ _ _ _ _ _ R) in Hu. injection Hu as <-.
  rewrite (row_lower _ _ _ _ _ _ _ R) in Hl. injection Hl as <-.
  rewrite (row_bandwidth _ _ _ _ _ _ _ R).
  set (w := fsub _ _). clearbody w. split.
  - intros [-> | [-> [-> | ->]]]; [now rewrite fdiv_nan_r | cbn | reflexivity].
    now rewrite Req_b_true.
  - intros -> Hw0 Hwn. eexists. split; [reflexivity|].
    destruct w as [| | |x]; cbn.
    + now contradiction Hwn.
    + now rewrite Rlt_b_false by lra.
    + now rewrite Rlt_b_false by lra.
    + rewrite Req_b_true by reflexivity.
      rewrite Req_b_false by (intros ->; now apply Hw0).
      destruct (Rlt_b x 0); reflexivity.
Qed.

Lemma C5_bandwidth_on_zero_or_missing_middle_witness :
  exists T b,
    bbands [Some (-1); Some 1] 2 (Fin 2) = Ok T /\
    nth_error (bb_bandwidth T) 1 = Some b /\ is_inf b = true.
Proof.
  destruct (bbands_total [Some (-1); Some 1] 2 (Fin 2) ltac:(lia))
    as [T HT].
  destruct (mixed_pair_row T HT) as (Hm & Hu & Hl & _).
  pose proof (sqrt_lt_R0 2 ltac:(lra)) as Hs.
  destruct (proj2 (proj2 (C5_bandwidth_on_zero_or_missing_middle
                            [Some (-1); Some 1] 2%Z (Fin 2))
                     T HT 1%nat _ _ _ Hm Hu Hl) eq_refl)
    as (b & Hb & Hinf).
  - cbn. intros [= Hc]. lra.
  - cbn. discriminate.
  - exists T, b. auto.
Defined.

(** ** C6: parameter validation *)

(** C6, as stated, fails: a negative multiplier with a valid period is
    accepted by [bbands], and a zero period is accepted by
    [simple_moving_average]. *)
Lemma C6_validation_counterexample :
  ~ ((forall close period,
         (period <= 0)%Z ->
         simple_moving_average close period = ValueError) /\
     (forall close period times,
         (period <= 0)%Z \/ flt times (Fin 0) = true ->
         bbands close period times = ValueError)).
Proof.
  intros [Hsma Hbb].
  specialize (Hbb [Some 10; Some 12] 2%Z (Fin (-2))
                (or_intror (Rlt_b_true (-2) 0 ltac:(lra)))).
  discriminate Hbb.
Qed.

(** C6, amended: neither operation validates its parameters itself.  A
    negative period is rejected with [ValueError] by the windowing
    primitive, before any windowed result is computed; a zero period and a
    negative multiplier are accepted and a table is returned. *)
Theorem C6_only_negative_period_rejected close period times :
  ((period < 0)%Z ->
   simple_moving_average close period = ValueError /\
   bbands close period times = ValueError) /\
  ((0 <= period)%Z ->
   (exists T, simple_moving_average close period = Ok T) /\
   (exists T, bbands close period times = Ok T)).
Proof.
  split; intros Hp.
  - unfold simple_moving_average, bbands.
    rewrite !rolling_negative by auto. split; reflexivity.
  - split; [|now apply bbands_total].
    unfold simple_moving_average. rewrite rolling_default by assumption.
    cbn [bind]. eauto.
Qed.

Lemma C6_only_negative_period_rejected_witness :
  (simple_moving_average [Some 10; Some 12] (-1) = ValueError /\
   bbands [Some 10; Some 12] (-1) (Fin 2) = ValueError) /\
  ((exists T, simple_moving_average [Some 10; Some 12] 0 = Ok T) /\
   (exists T, bbands [Some 10; Some 12] 0 (Fin (-2)) = Ok T)).
Proof.
  split.
  - apply (proj1 (C6_only_negative_period_rejected
                    [Some 10; Some 12] (-1) (Fin 2))). lia.
  - apply (proj2 (C6_only_negative_period_rejected
                    [Some 10; Some 12] 0 (Fin (-2)))). lia.
Defined.

(** ** C3: the deviation is the sample standard deviation *)







(** * Further properties of the two operations *)

(** ** Shape of the returned tables *)

Lemma sma_series close period S0 :
  simple_moving_average close period = Ok S0 ->
  (0 <= period)%Z /\ sma S0 = Rolling.mean (window_of period) close.
Proof.
  unfold simple_moving_average. intros H.
  destruct (Z.ltb_spec period 0) as [Hn|Hn].
  - rewrite rolling_negative in H by auto. discriminate.
  - rewrite rolling_default in H by assumption. cbn [bind] in H.
    injection H as <-. auto.
Qed.

Lemma bbands_middle_series close period times T :
  bbands close period times = Ok T ->
  (0 <= period)%Z /\ bb_middle T = Rolling.mean (window_of period) close.
Proof.
  unfold bbands. intros H.
  destruct (Z.ltb_spec period 0) as [Hn|Hn].
  - rewrite rolling_negative in H by auto. discriminate.
  - rewrite rolling_min_periods in H by assumption. cbn [bind] in H.
    injection H as <-. auto.
Qed.

(** Every series of either table is aligned with the input: it has exactly
    one value per input position. *)
Theorem tables_aligned_with_input close period times :
  (forall S0, simple_moving_average close period = Ok S0 ->
     length (sma S0) = length close) /\
  (forall T, bbands close period times = Ok T ->
     length (bb_middle T) = length close /\
     length (bb_upper T) = length close /\
     length (bb_lower T) = length close /\
     length (bb_break_upper T) = length close /\
     length (bb_break_lower T) = length close /\
     length (bb_bandwidth T) = length close /\
     length (bb_percent_b T) = length close).
Proof.
  split.
  - intros S0 H. destruct (sma_series _ _ _ H) as [_ ->].
    apply mean_length.
  - intros T H. now apply bbands_lengths with (period := period) (times := times).
Qed.

Lemma tables_aligned_with_input_witness :
  (exists S0, simple_moving_average [Some 1; None; Some 3] 2 = Ok S0 /\
              length (sma S0) = 3%nat) /\
  (exists T, bbands [Some 1; None; Some 3] 2 (Fin 2) = Ok T /\
             length (bb_percent_b T) = 3%nat).
Proof.
  split; eexists; (split; [reflexivity|]).
  - apply (proj1 (tables_aligned_with_input [Some 1; None; Some 3] 2 (Fin 2))
             _ eq_refl).
  - apply (proj2 (tables_aligned_with_input [Some 1; None; Some 3] 2 (Fin 2))
             _ eq_refl).
Defined.

(** The middle band of [bbands] is the series [simple_moving_average]
    returns for the same input and period, and the two calls fail on the
    same periods (the negative ones), whatever the multiplier. *)
Theorem bb_middle_is_sma close period times :
  match simple_moving_average close period, bbands close period times with
  | Ok S0, Ok T => bb_middle T = sma S0
  | ValueError, ValueError => (period < 0)%Z
  | _, _ => False
  end.
Proof.
  destruct (Z.ltb_spec period 0) as [Hn|Hn].
  - unfold simple_moving_average, bbands.
    rewrite !rolling_negative by auto. exact Hn.
  - destruct (simple_moving_average close period) as [S0|] eqn:Hs.
    + destruct (bbands_total close period times Hn) as [T HT]. rewrite HT.
      destruct (sma_series _ _ _ Hs) as [_ ->].
      now destruct (bbands_middle_series _ _ _ _ HT) as [_ ->].
    + unfold simple_moving_average in Hs.
      rewrite rolling_default in Hs by assumption. discriminate.
Qed.

(** ** Positions without a mean *)

Lemma series_constant {A : Type} (v : A) (l : Series A) n :
  length l = n ->
  (forall i x, nth_error l i = Some x -> x = v) ->
  l = repeat v n.
Proof.
  intros <- H. apply nth_error_ext. intros i.
  destruct (Nat.ltb_spec i (length l)) as [Hi|Hi].
  - rewrite nth_error_repeat by assumption.
    destruct (nth_error l i) as [x|] eqn:E.
    + f_equal. now apply (H i).
    + apply nth_error_None in E. lia.
  - transitivity (@None A); [|symmetry]; apply nth_error_None;
      rewrite ?repeat_length; lia.
Qed.

(** What a row holds when the rolling mean is missing. *)
Lemma row_without_mean T sd times i c s :
  row_of T sd times i c NaN s ->
  nth_error (bb_middle T) i = Some NaN /\
  nth_error (bb_upper T) i = Some NaN /\
  nth_error (bb_lower T) i = Some NaN /\
  nth_error (bb_break_upper T) i = Some 0%Z /\
  nth_error (bb_break_lower T) i = Some 0%Z /\
  nth_error (bb_bandwidth T) i = Some NaN /\
  nth_error (bb_percent_b T) i = Some NaN.
Proof.
  intros [Rm _ Ru Rl Rbu Rbl Rw Rb].
  cbn [fadd fsub fneg] in Ru, Rl, Rbu, Rbl, Rw, Rb.
  unfold fgt in Rbu. cbn [flt] in Rbu. rewrite flt_nan_r in Rbl.
  rewrite fdiv_nan_r in Rb.
  repeat split; assumption.
Qed.

Lemma observations_length_lt (w : list price) :
  In None w -> (length (Rolling.observations w) < length w)%nat.
Proof.
  induction w as [|[a|] w IH]; cbn; intros H.
  - contradiction.
  - destruct H as [H|H]; [discriminate|].
    apply -> Nat.succ_lt_mono. exact (IH H).
  - apply Nat.lt_succ_r. apply observations_length_le.
Qed.

Lemma window_at_member r close i j c :
  (S i - Rolling.window r <= j)%nat -> (j <= i)%nat ->
  nth_error close j = Some c ->
  In c (Rolling.window_at r close i).
Proof.
  intros Hlo Hhi Hc. unfold Rolling.window_at.
  set (start := (S i - Rolling.window r)%nat) in *.
  apply (nth_error_In _ (j - start)).
  rewrite nth_error_firstn.
  destruct (Nat.ltb_spec (j - start) (S i - start)); [|lia].
  rewrite nth_error_skipn.
  replace (start + (j - start))%nat with j by lia.
  exact Hc.
Qed.

Lemma mean_at_missing_price p (close : Series price) i j :
  (j <= i)%nat -> (i < j + p)%nat -> (i < length close)%nat ->
  nth_error close j = Some None ->
  Rolling.mean_at (Rolling.mk p p) close i = NaN.
Proof.
  intros Hji Hip Hi Hj. unfold Rolling.mean_at.
  set (w := Rolling.window_at _ close i).
  assert (Hin : In None w).
  { apply window_at_member with (j := j); cbn [Rolling.window];
      [lia | lia | exact Hj]. }
  pose proof (observations_length_lt w Hin) as Hlt.
  pose proof (window_at_length (Rolling.mk p p) close i Hi) as Hlen.
  fold w in Hlen. cbn [Rolling.window Rolling.min_periods] in *.
  destruct (Nat.leb_spec p (length (Rolling.observations w))); [lia|].
  reflexivity.
Qed.

(** A missing price at position [j] leaves every position whose window
    holds it, [j .. j + period - 1], without a moving average and without
    bands: the five real-valued series of [bbands] and [sma] are missing
    there and both break flags are 0. *)
Theorem missing_price_blanks_its_windows (close : Series price) period times
    j i :
  nth_error close j = Some None ->
  (j <= i)%nat -> (Z.of_nat i < Z.of_nat j + period)%Z ->
  (i < length close)%nat ->
  exists S0 T,
    simple_moving_average close period = Ok S0 /\
    bbands close period times = Ok T /\
    nth_error (sma S0) i = Some NaN /\
    nth_error (bb_middle T) i = Some NaN /\
    nth_error (bb_upper T) i = Some NaN /\
    nth_error (bb_lower T) i = Some NaN /\
    nth_error (bb_break_upper T) i = Some 0%Z /\
    nth_error (bb_break_lower T) i = Some 0%Z /\
    nth_error (bb_bandwidth T) i = Some NaN /\
    nth_error (bb_percent_b T) i = Some NaN.
Proof.
  intros Hj Hji Hip Hi.
  assert (Hp : (0 <= period)%Z) by lia.
  destruct (bbands_total close period times Hp) as [T HT].
  destruct (simple_moving_average close period) as [S0|] eqn:Hs.
  2:{ unfold simple_moving_average in Hs.
      rewrite rolling_default in Hs by assumption. discriminate. }
  exists S0, T. split; [reflexivity|]. split; [exact HT|].
  assert (Hm : Rolling.mean_at (window_of period) close i = NaN).
  { apply mean_at_missing_price with (j := j); (assumption || lia). }
  split.
  - destruct (sma_series _ _ _ Hs) as [_ ->]. unfold Rolling.mean.
    rewrite nth_error_tabulate by assumption. now rewrite Hm.
  - destruct (bbands_position _ _ _ _ i HT Hi) as [c Hc].
    destruct (bbands_row _ _ _ _ _ _ HT Hc) as [R _].
    rewrite Hm in R. exact (row_without_mean _ _ _ _ _ _ R).
Qed.

Lemma missing_price_blanks_its_windows_witness :
  exists S0 T,
    simple_moving_average [Some 1; None; Some 3; Some 5] 2 = Ok S0 /\
    bbands [Some 1; None; Some 3; Some 5] 2 (Fin 2) = Ok T /\
    nth_error (sma S0) 2 = Some NaN /\
    nth_error (bb_middle T) 2 = Some NaN /\
    nth_error (bb_upper T) 2 = Some NaN /\
    nth_error (bb_lower T) 2 = Some NaN /\
    nth_error (bb_break_upper T) 2 = Some 0%Z /\
    nth_error (bb_break_lower T) 2 = Some 0%Z /\
    nth_error (bb_bandwidth T) 2 = Some NaN /\
    nth_error (bb_percent_b T) 2 = Some NaN.
Proof.
  apply (missing_price_blanks_its_windows
           [Some 1; None; Some 3; Some 5] 2 (Fin 2) 1 2);
    [reflexivity | lia | lia | cbn; lia].
Defined.

(** A period longer than the series leaves nothing to compute: every
    real-valued series of both tables is missing throughout and both break
    flags are 0 throughout. *)
Theorem period_longer_than_series close period times :
  (Z.of_nat (length close) < period)%Z ->
  exists S0 T,
    simple_moving_average close period = Ok S0 /\
    bbands close period times = Ok T /\
    sma S0 = repeat NaN (length close) /\
    bb_middle T = repeat NaN (length close) /\
    bb_upper T = repeat NaN (length close) /\
    bb_lower T = repeat NaN (length close) /\
    bb_break_upper T = repeat 0%Z (length close) /\
    bb_break_lower T = repeat 0%Z (length close) /\
    bb_bandwidth T = repeat NaN (length close) /\
    bb_percent_b T = repeat NaN (length close).
Proof.
  intros Hlong.
  assert (Hp : (0 <= period)%Z) by lia.
  destruct (bbands_total close period times Hp) as [T HT].
  destruct (simple_moving_average close period) as [S0|] eqn:Hs.
  2:{ unfold simple_moving_average in Hs.
      rewrite rolling_default in Hs by assumption. discriminate. }
  exists S0, T. split; [reflexivity|]. split; [exact HT|].
  assert (Hm : forall i, (i < length close)%nat ->
            Rolling.mean_at (window_of period) close i = NaN).
  { intros i Hi. unfold window_of. apply mean_at_short. lia. }
  assert (Row : forall i, (i < length close)%nat ->
            exists c s, row_of T (bb_std close period) times i c NaN s).
  { intros i Hi. destruct (bbands_position _ _ _ _ i HT Hi) as [c Hc].
    destruct (bbands_row _ _ _ _ _ _ HT Hc) as [R _].
    rewrite (Hm i Hi) in R. eauto. }
  destruct (bbands_lengths _ _ _ _ HT) as (Lm & Lu & Ll & Lbu & Lbl & Lw & Lb).
  split.
  { apply series_constant.
    - destruct (sma_series _ _ _ Hs) as [_ ->]. apply mean_length.
    - intros i x Hx. destruct (sma_series _ _ _ Hs) as [_ E].
      rewrite E in Hx.
      assert (Hi : (i < length close)%nat)
        by (eapply series_position; [apply mean_length | exact Hx]).
      unfold Rolling.mean in Hx.
      rewrite nth_error_tabulate, (Hm i Hi) in Hx by assumption.
      congruence. }
  repeat split; (apply series_constant; [assumption|]); intros i x Hx;
    match goal with
    | L : length ?l = length close, Hx : nth_error ?l i = Some x |- _ =>
        destruct (Row i (series_position _ _ _ _ L Hx)) as (c & s & R)
    end;
    destruct (row_without_mean _ _ _ _ _ _ R)
      as (Em & Eu & El & Ebu & Ebl & Ew & Eb);
    congruence.
Qed.

Lemma period_longer_than_series_witness :
  exists S0 T,
    simple_moving_average [Some 10; Some 12] 3 = Ok S0 /\
    bbands [Some 10; Some 12] 3 (Fin 2) = Ok T /\
    sma S0 = repeat NaN 2 /\
    bb_middle T = repeat NaN 2 /\
    bb_upper T = repeat NaN 2 /\
    bb_lower T = repeat NaN 2 /\
    bb_break_upper T = repeat 0%Z 2 /\
    bb_break_lower T = repeat 0%Z 2 /\
    bb_bandwidth T = repeat NaN 2 /\
    bb_percent_b T = repeat NaN 2.
Proof.
  apply (period_longer_than_series [Some 10; Some 12] 3 (Fin 2)).
  cbn. lia.
Defined.

(** ** Positions with a mean *)









(** ** Break flags *)

Lemma b2z_one b : Z.b2z b = 1%Z <-> b = true.
Proof. destruct b; cbn; split; intros H; (reflexivity || discriminate). Qed.

(** Both break flags are 0 or 1 at every position, and with a multiplier
    that is not negative they are never both 1. *)
Theorem break_flags_binary_and_exclusive close period times T i bu bl :
  bbands close period times = Ok T ->
  nth_error (bb_break_upper T) i = Some bu ->
  nth_error (bb_break_lower T) i = Some bl ->
  (bu = 0%Z \/ bu = 1%Z) /\ (bl = 0%Z \/ bl = 1%Z) /\
  (fle (Fin 0) times = true -> ~ (bu = 1%Z /\ bl = 1%Z)).
Proof.
  intros H Hbu Hbl.
  destruct (bbands_lengths _ _ _ _ H) as (_ & _ & _ & Lbu & _).
  pose proof (series_position _ _ _ _ Lbu Hbu) as Hi.
  destruct (bbands_row_at _ _ _ _ i H Hi) as (c & m & s & Hc & R & St).
  rewrite (row_break_upper _ _ _ _ _ _ _ R) in Hbu. injection Hbu as <-.
  rewrite (row_break_lower _ _ _ _ _ _ _ R) in Hbl. injection Hbl as <-.
  split; [destruct (fgt _ _); auto|]. split; [destruct (flt _ _); auto|].
  intros Ht [Hu Hl]. apply b2z_one in Hu, Hl. unfold fgt in Hu.
  destruct St as [-> _ | a -> -> | a sd -> -> Hsd _].
  - discriminate Hu.
  - rewrite fmul_nan_r in Hu. cbn in Hu. discriminate Hu.
  - destruct c as [x|]; [|discriminate Hl].
    destruct times as [| | |t]; cbn in Ht, Hu, Hl; try discriminate Ht.
    + unfold Req_b, Rlt_b in Hu, Hl.
      destruct (Req_dec_T sd 0); cbn in Hu; [discriminate Hu|].
      destruct (Rlt_dec sd 0); [lra|]. cbn in Hu. discriminate Hu.
    + unfold Rle_b in Ht. destruct (Rle_dec 0 t); [|discriminate Ht].
      unfold Rlt_b in Hu, Hl.
      destruct (Rlt_dec (a + t * sd) x); [|discriminate Hu].
      destruct (Rlt_dec x (a + - (t * sd))); [|discriminate Hl].
      nra.
Qed.

Lemma break_flags_binary_and_exclusive_witness :
  exists T bu bl,
    bbands [Some 10; Some 12] 2 (Fin 2) = Ok T /\
    nth_error (bb_break_upper T) 1 = Some bu /\
    nth_error (bb_break_lower T) 1 = Some bl /\
    (bu = 0%Z \/ bu = 1%Z) /\ (bl = 0%Z \/ bl = 1%Z) /\
    (fle (Fin 0) (Fin 2) = true -> ~ (bu = 1%Z /\ bl = 1%Z)).
Proof.
  do 3 eexists. split; [reflexivity|]. split; [reflexivity|].
  split; [reflexivity|].
  exact (break_flags_binary_and_exclusive
           [Some 10; Some 12] 2 (Fin 2) _ 1%nat _ _
           eq_refl eq_refl eq_refl).
Defined.

(** ** A multiplier that is not positive *)



(** ** [bb_percent_b] and the break flags *)


Lemma pair_mean (x y : R) :
  Rolling.mean_at (Rolling.mk 2 2) [Some x; Some y] 1 = Fin ((x + y) / 2).
Proof.
  rewrite (mean_at_present 2 _ 1 [x; y]) by (reflexivity || lia).
  f_equal. unfold_stats. lra.
Qed.


(** ** [bb_bandwidth] on positive prices *)






(** ** A window of equal prices *)






(** ** The moving average slides *)







(** ** Moving every price by a constant *)













(** ** The deviation *)



